(** * Interest Calculation form script

    A verification model of
    [src/doctype/interest_calculation/interest_calculation.js]: the client
    script of the "Interest Calculation" document type.  The script registers
    four form events; three of them recompute two derived fields of the
    record being edited and the fourth one installs a lookup filter.

    JavaScript numbers are IEEE 754 binary64 values, which is exactly what
    Rocq's primitive [float] is, so the arithmetic of the script is kept as
    it is: [*], [/] and [+] below round the way the script's operators do.
    The record [frm.doc] is a JavaScript object used as a map from field
    names to values, modelled as a [gmap string value]. *)

From Stdlib Require Import Floats.
From stdpp Require Import base option list gmap strings.

Set Warnings "-inexact-float".
Local Open Scope string_scope.

(** ** Values held by the fields of a record *)

Inductive value : Type :=
  | JUndefined
  | JNull
  | JBool (b : bool)
  | JNum (x : float)
  | JStr (s : string).

(** Equality of binary64 values is decidable: the primitive bitwise test
    [Leibniz.eqb] reflects it. *)
#[global] Instance float_eq_dec : EqDecision float.
Proof.
  intros x y. destruct (Leibniz.eqb x y) eqn:E.
  - left. by apply FloatAxioms.Leibniz.eqb_spec.
  - right. intros H. apply FloatAxioms.Leibniz.eqb_spec in H. congruence.
Defined.

#[global] Instance value_eq_dec : EqDecision value.
Proof. solve_decision. Defined.

(** Reading a property of a JavaScript object: an absent key reads as
    [undefined]. *)
Definition get (d : gmap string value) (k : string) : value :=
  default JUndefined (d !! k).

(** ** The form object

    [frm.doc] is the record; [queries] holds, per link field, the function
    registered with [frm.set_query].  The function registered by this script
    reads nothing but [frm.doc], and it reads it when the host calls it, so a
    registered query is a function of the record as it is at that time. *)

Record query_args : Type := QueryArgs { filters : gmap string value }.

Record frm : Type := Frm {
  doc : gmap string value;
  queries : gmap string (gmap string value → query_args)
}.

(** ** Handlers

    A handler runs to completion on the form it is given.  Besides its result
    and the form it leaves behind it yields the list of record states the
    host was handed on the way, one per field write, oldest first. *)

Definition handler (A : Type) : Type :=
  frm → A * frm * list (gmap string value).

#[global] Instance handler_ret : MRet handler :=
  λ A (a : A) s, (a, s, []).

#[global] Instance handler_bind : MBind handler :=
  λ A B (k : A → handler B) (m : handler A) s,
    let '(a, s1, w1) := m s in
    let '(b, s2, w2) := k a s1 in
    (b, s2, (w1 ++ w2)%list).

Definition exec {A : Type} (h : handler A) (s : frm) : frm := (h s).1.2.
Definition exposed {A : Type} (h : handler A) (s : frm) :
  list (gmap string value) := (h s).2.

(** [frm.doc.<field>] *)
Definition read_field (f : string) : handler value :=
  λ s, (get (doc s) f, s, []).

(** Modelled from the spec: [frm.set_value] belongs to the host framework and
    is not part of this repository.  The spec has it write the field back
    onto the same in-memory record, replacing any prior value; the host
    receives each field write as a call of its own. *)
Definition set_value (f : string) (v : value) : handler unit :=
  λ s, let d := <[f := v]> (doc s) in
       (tt, {| doc := d; queries := queries s |}, [d]).

(** Modelled from the spec: [frm.set_query] belongs to the host framework.
    It records the function that will provide the filters of a link field. *)
Definition set_query (f : string)
    (q : gmap string value → query_args) : handler unit :=
  λ s, (tt, {| doc := doc s; queries := <[f := q]> (queries s) |}, []).

Section Script.

(** The host's conversion of text to a number ([parseFloat] after the
    framework has stripped number formatting); it yields [nan] for text that
    is not a number. *)
Variable parseFloat : string → float.

(** Modelled from the spec: [flt] is the host framework's numeric coercion
    and is not part of this repository.  A number is taken as it is; absent
    ([undefined], [null]), blank and non-numeric input coerces to zero. *)
Definition flt (v : value) : float :=
  match v with
  | JNum x => x
  | JUndefined | JNull => 0
  | JBool _ => 0
  | JStr s =>
      if decide (s = "") then 0%float
      else let x := parseFloat s in
           if is_nan x then 0%float else x
  end.

(** [function calculate_interest_amount(frm)] *)
Definition calculate_interest_amount : handler unit :=
  a ← read_field "approved_amount";
  i ← read_field "interest";
  t ← read_field "tenure";
  let interest_amount := (flt a * flt i * flt t / 100)%float in
  set_value "interest_amount" (JNum interest_amount);;
  a' ← read_field "approved_amount";
  set_value "final_amount" (JNum (interest_amount + flt a')%float).

(** The events registered with
    [frappe.ui.form.on("Interest Calculation", {...})]. *)
Definition approved_amount : handler unit := calculate_interest_amount.
Definition interest : handler unit := calculate_interest_amount.
Definition tenure : handler unit := calculate_interest_amount.

Definition setup : handler unit :=
  set_query "full_name"
    (λ d, {| filters := {[ "email" := get d "email" ]} |}).

Definition doctype : string := "Interest Calculation".

Definition form_events : list (string * handler unit) :=
  [ ("approved_amount", approved_amount);
    ("interest", interest);
    ("tenure", tenure);
    ("setup", setup) ].

Fixpoint assoc {A : Type} (k : string) (l : list (string * A)) : option A :=
  match l with
  | [] => None
  | (k', a) :: l' => if decide (k = k') then Some a else assoc k l'
  end.

(** The handler the host finds for an event of the form, if any. *)
Definition on (ev : string) : option (handler unit) := assoc ev form_events.

End Script.

(** ** The formulas of the specification *)

Section Formulas.

Variable parseFloat : string → float.

(** [interest_amount = approved_amount * interest * tenure / 100] on the
    coerced inputs of a record. *)
Definition spec_interest_amount (d : gmap string value) : float :=
  (flt parseFloat (get d "approved_amount")
   * flt parseFloat (get d "interest")
   * flt parseFloat (get d "tenure") / 100)%float.

(** [final_amount = interest_amount + approved_amount] *)
Definition spec_final_amount (d : gmap string value) : float :=
  (spec_interest_amount d + flt parseFloat (get d "approved_amount"))%float.

(** A record whose two derived fields hold what the formulas give for its
    own three inputs. *)
Definition consistent (d : gmap string value) : Prop :=
  d !! "interest_amount" = Some (JNum (spec_interest_amount d))
  ∧ d !! "final_amount" = Some (JNum (spec_final_amount d)).

(** Input that is missing, blank or not numeric. *)
Definition unusable (v : value) : Prop :=
  match v with
  | JUndefined | JNull => True
  | JBool _ => True
  | JStr s => s = "" ∨ is_nan (parseFloat s) = true
  | JNum _ => False
  end.

(** The record after the first and after the second field write of the
    recalculation, as the formulas have them. *)
Definition after_first_write (d : gmap string value) : gmap string value :=
  <["interest_amount" := JNum (spec_interest_amount d)]> d.

Definition after_second_write (d : gmap string value) : gmap string value :=
  <["final_amount" := JNum (spec_final_amount d)]> (after_first_write d).

End Formulas.

(** A record whose three inputs are the numbers [a], [i] and [t]. *)
Definition has_inputs (d : gmap string value) (a i t : float) : Prop :=
  d !! "approved_amount" = Some (JNum a)
  ∧ d !! "interest" = Some (JNum i)
  ∧ d !! "tenure" = Some (JNum t).

(** The three fields whose change triggers the recalculation. *)
Definition trigger_fields : list string :=
  ["approved_amount"; "interest"; "tenure"].

(** Equality of two numbers as JavaScript's SameValueZero has it: [===],
    except that [NaN] is the same as [NaN]; [+0] and [-0] are the same. *)
Definition same_value_zero (x y : float) : bool :=
  (x =? y)%float || (is_nan x && is_nan y).

(** The values of binary64 that are neither [NaN] nor an infinity. *)
Inductive zero_or_finite : spec_float → Prop :=
  | zf_zero s : zero_or_finite (S754_zero s)
  | zf_finite s m e : zero_or_finite (S754_finite s m e).

(** Modelled from the spec: the lookup of a link field belongs to the host
    framework.  It asks the function registered for the field, if there is
    one, for the filters, handing it the record as it is at lookup time, and
    offers the candidates whose fields equal the filters' values. *)
Definition matches (fs : gmap string value) (e : gmap string value) : Prop :=
  map_Forall (λ k v, get e k = v) fs.

#[global] Instance matches_dec fs e : Decision (matches fs e).
Proof. unfold matches. apply _. Defined.

Definition lookup_candidates (field : string) (s : frm)
    (entries : list (gmap string value)) : list (gmap string value) :=
  match queries s !! field with
  | Some q => filter (matches (filters (q (doc s)))) entries
  | None => entries
  end.

(** ** Sample data

    A host on which no text reads as a number, and a few records. *)
Definition no_numeric_text : string → float := λ _, nan.

Definition record (a i t : value) : gmap string value :=
  {[ "approved_amount" := a; "interest" := i; "tenure" := t;
     "full_name" := JStr "Asha Rao"; "email" := JStr "a@x.com" ]}.

(** A saved record (1000 at 5 for 2) on which the user has just changed the
    tenure to 4: the derived fields still hold the values of the old tenure. *)
Definition tenure_edited : frm :=
  {| doc := <["interest_amount" := JNum 100]>
              (<["final_amount" := JNum 1100]>
                 (record (JNum 1000) (JNum 5) (JNum 4)));
     queries := ∅ |}.

(** Two large amounts whose product is beyond the range of binary64, and a
    blank tenure. *)
Definition overflowing : frm :=
  {| doc := record (JNum 1e200) (JNum 1e200) (JStr ""); queries := ∅ |}.

(** 1000.1 at 7.5 for 3. *)
Definition rounded : frm :=
  {| doc := record (JNum 1000.1) (JNum 7.5) (JNum 3); queries := ∅ |}.

Definition blank_tenure : frm :=
  {| doc := record (JNum 2500) (JStr "n/a") (JStr ""); queries := ∅ |}.

(** The same three inputs as [tenure_edited], another person, and derived
    fields never computed. *)
Definition tenure_edited_elsewhere : frm :=
  {| doc := <["email" := JStr "b@x.com"]>
              (<["full_name" := JNull]>
                 (record (JNum 1000) (JNum 5) (JNum 4)));
     queries := ∅ |}.

(** The form with one field of its record replaced. *)
Definition with_field (f : string) (v : value) (s : frm) : frm :=
  {| doc := <[f := v]> (doc s); queries := queries s |}.

Definition people : list (gmap string value) :=
  [ {[ "name" := JStr "Asha Rao"; "email" := JStr "a@x.com" ]};
    {[ "name" := JStr "Bo Li"; "email" := JStr "b@x.com" ]};
    {[ "name" := JStr "A. Rao"; "email" := JStr "a@x.com" ]};
    {[ "name" := JStr "No Mail" ]} ].

(** ** The editing session *)

(** The two fields the recalculation writes. *)
Definition derived_fields : list string :=
  ["interest_amount"; "final_amount"].

(** The names under which the script registers a handler. *)
Definition event_names : list string :=
  ["approved_amount"; "interest"; "tenure"; "setup"].

(** The values of binary64 that are not below zero: the zeros, the positive
    finite numbers and plus infinity. *)
Inductive nonneg_sf : spec_float → Prop :=
  | nn_zero s : nonneg_sf (S754_zero s)
  | nn_finite m e : nonneg_sf (S754_finite false m e)
  | nn_infinity : nonneg_sf (S754_infinity false).

(** Modelled from the spec: the dispatch of change events belongs to the host
    framework.  When the user changes a field the host stores the new value
    in the record and then runs the handler the script registered under the
    name of the field, if there is one. *)
Definition change (parseFloat : string → float) (f : string) (v : value) :
    handler unit :=
  set_value f v;;
  match on parseFloat f with
  | Some h => h
  | None => mret tt
  end.

(** A session: the edits of the user, one after the other. *)
Definition changes (parseFloat : string → float)
    (edits : list (string * value)) (s : frm) : frm :=
  foldl (λ s' e, exec (change parseFloat e.1 e.2) s') s edits.

(** More sample data: a record that satisfies the formulas, one whose
    interest is [NaN], and a session on the form [tenure_edited]. *)
Definition settled : frm :=
  {| doc := <["interest_amount" := JNum 100]>
              (<["final_amount" := JNum 1100]>
                 (record (JNum 1000) (JNum 5) (JNum 2)));
     queries := ∅ |}.

Definition poisoned : frm :=
  {| doc := record (JNum 1000) (JNum nan) (JNum 2); queries := ∅ |}.

Definition session : list (string * value) :=
  [ ("email", JStr "b@x.com");
    ("interest", JStr "7.5 %");
    ("tenure", JNum 3);
    ("full_name", JStr "Bo Li") ].

(** * Properties *)

(** ** Facts about binary64 arithmetic *)

Lemma is_finite_spec (x : float) :
  is_finite x = true → zero_or_finite (Prim2SF x).
Proof.
  unfold is_finite. intros H.
  apply negb_true_iff, orb_false_iff in H as [Hn Hi].
  unfold Prim2SF. rewrite Hn.
  destruct (is_zero x); [constructor|]. rewrite Hi.
  destruct (Z.frexp x) as [r exp].
  destruct (shr_fexp _ _ _ _ _) as [shr e'].
  destruct (shr_m shr); constructor.
Qed.

Lemma eqb_zero_spec (x : float) :
  (x =? 0)%float = true → ∃ s, Prim2SF x = S754_zero s.
Proof.
  rewrite FloatAxioms.eqb_spec. change (Prim2SF 0) with (S754_zero false).
  destruct (Prim2SF x) as [s|s| |s m e]; unfold SFeqb; simpl;
    try done; eauto; by destruct s.
Qed.

(** A finite product times zero, over a hundred, is a zero. *)
Lemma times_zero_spec (p : float) :
  is_finite p = true → ∃ s, Prim2SF (p * 0 / 100)%float = S754_zero s.
Proof.
  intros H%is_finite_spec.
  rewrite div_spec, mul_spec.
  change (Prim2SF 0) with (S754_zero false).
  change (Prim2SF 100) with (S754_finite false 7036874417766400 (-46)).
  destruct H; simpl; eauto.
Qed.

Lemma same_value_zero_zero (z : float) (s : bool) :
  Prim2SF z = S754_zero s → same_value_zero z 0 = true.
Proof.
  intros H. unfold same_value_zero. rewrite FloatAxioms.eqb_spec, H.
  by change (Prim2SF 0) with (S754_zero false).
Qed.

Lemma same_value_zero_of_spec (x y : float) :
  Prim2SF x = Prim2SF y → same_value_zero x y = true.
Proof.
  intros H. unfold same_value_zero. apply Prim2SF_inj in H as ->.
  unfold is_nan. by destruct (y =? y)%float.
Qed.

(** Adding a number to a zero gives that number. *)
Lemma zero_plus (z a : float) (s : bool) :
  Prim2SF z = S754_zero s → same_value_zero (z + a) a = true.
Proof.
  intros H.
  destruct (Prim2SF a) as [sa|sa| |sa m e] eqn:Ea;
    [| apply same_value_zero_of_spec; by rewrite add_spec, H, Ea ..].
  unfold same_value_zero. rewrite FloatAxioms.eqb_spec, add_spec, H, Ea.
  by destruct s, sa.
Qed.

(** Taking the zero away again still gives that number. *)
Lemma zero_plus_minus (z a : float) (s : bool) :
  Prim2SF z = S754_zero s → same_value_zero (z + a - z) a = true.
Proof.
  intros H.
  destruct (Prim2SF a) as [sa|sa| |sa m e] eqn:Ea;
    [| apply same_value_zero_of_spec; by rewrite sub_spec, add_spec, H, Ea ..].
  unfold same_value_zero.
  rewrite FloatAxioms.eqb_spec, sub_spec, add_spec, H, Ea.
  by destruct s, sa.
Qed.

Lemma Some_JNum_inj (x y : float) : Some (JNum x) = Some (JNum y) → x = y.
Proof. by intros [= ->]. Qed.

Lemma float_neq (x y : float) : Leibniz.eqb x y = false → x ≠ y.
Proof.
  intros H E. apply FloatAxioms.Leibniz.eqb_spec in E. congruence.
Qed.

(** ** The coercion *)

Lemma flt_unusable (parseFloat : string → float) (v : value) :
  unusable parseFloat v → flt parseFloat v = 0%float.
Proof.
  destruct v as [| | b | x | s]; simpl; try done.
  intros [-> | H]; [done|].
  destruct (decide (s = "")); [done|]. by rewrite H.
Qed.

(** ** The run of the recalculation *)

Lemma get_insert_ne (d : gmap string value) (k k' : string) (v : value) :
  k' ≠ k → get (<[k' := v]> d) k = get d k.
Proof. intros Hk. unfold get. by rewrite lookup_insert_ne. Qed.

Lemma get_insert_eq (d : gmap string value) (k : string) (v : value) :
  get (<[k := v]> d) k = v.
Proof. unfold get. by rewrite lookup_insert_eq. Qed.

Lemma get_numeric (d : gmap string value) (k : string) (x : float) :
  d !! k = Some (JNum x) → get d k = JNum x.
Proof. unfold get. by intros ->. Qed.

Lemma calculate_interest_amount_run (parseFloat : string → float) (s : frm) :
  calculate_interest_amount parseFloat s =
    (tt,
     {| doc := after_second_write parseFloat (doc s); queries := queries s |},
     [after_first_write parseFloat (doc s);
      after_second_write parseFloat (doc s)]).
Proof.
  unfold calculate_interest_amount, mbind, handler_bind, read_field,
    set_value. cbn [doc queries app].
  rewrite get_insert_ne by done.
  reflexivity.
Qed.

Lemma exec_calculate (parseFloat : string → float) (s : frm) :
  exec (calculate_interest_amount parseFloat) s =
    {| doc := after_second_write parseFloat (doc s); queries := queries s |}.
Proof. unfold exec. by rewrite calculate_interest_amount_run. Qed.

Lemma exposed_calculate (parseFloat : string → float) (s : frm) :
  exposed (calculate_interest_amount parseFloat) s =
    [after_first_write parseFloat (doc s);
     after_second_write parseFloat (doc s)].
Proof. unfold exposed. by rewrite calculate_interest_amount_run. Qed.

Lemma after_second_write_other (parseFloat : string → float)
    (d : gmap string value) (k : string) :
  k ≠ "interest_amount" → k ≠ "final_amount" →
  after_second_write parseFloat d !! k = d !! k.
Proof.
  intros H1 H2. unfold after_second_write, after_first_write.
  by rewrite !lookup_insert_ne.
Qed.

Lemma after_second_write_interest_amount (parseFloat : string → float)
    (d : gmap string value) :
  after_second_write parseFloat d !! "interest_amount"
  = Some (JNum (spec_interest_amount parseFloat d)).
Proof.
  unfold after_second_write, after_first_write.
  rewrite lookup_insert_ne by done. by rewrite lookup_insert_eq.
Qed.

Lemma after_second_write_final_amount (parseFloat : string → float)
    (d : gmap string value) :
  after_second_write parseFloat d !! "final_amount"
  = Some (JNum (spec_final_amount parseFloat d)).
Proof. unfold after_second_write. by rewrite lookup_insert_eq. Qed.

Lemma spec_interest_amount_inputs (parseFloat : string → float)
    (d d' : gmap string value) :
  (∀ f, f ∈ trigger_fields → get d f = get d' f) →
  spec_interest_amount parseFloat d = spec_interest_amount parseFloat d'.
Proof.
  intros H. unfold spec_interest_amount.
  rewrite !H; [done | unfold trigger_fields; set_solver ..].
Qed.

Lemma spec_final_amount_inputs (parseFloat : string → float)
    (d d' : gmap string value) :
  (∀ f, f ∈ trigger_fields → get d f = get d' f) →
  spec_final_amount parseFloat d = spec_final_amount parseFloat d'.
Proof.
  intros H. unfold spec_final_amount.
  rewrite (spec_interest_amount_inputs _ d d' H).
  rewrite H; [done | unfold trigger_fields; set_solver].
Qed.

Lemma trigger_field_not_derived (f : string) :
  f ∈ trigger_fields → f ≠ "interest_amount" ∧ f ≠ "final_amount".
Proof.
  unfold trigger_fields. intros H.
  repeat (apply elem_of_cons in H as [-> | H]; [done|]).
  by apply elem_of_nil in H.
Qed.

Lemma after_second_write_inputs (parseFloat : string → float)
    (d : gmap string value) (f : string) :
  f ∈ trigger_fields → get (after_second_write parseFloat d) f = get d f.
Proof.
  intros [H1 H2]%trigger_field_not_derived. unfold get.
  by rewrite after_second_write_other.
Qed.

Lemma spec_interest_amount_numeric (parseFloat : string → float)
    (d : gmap string value) (a i t : float) :
  has_inputs d a i t →
  spec_interest_amount parseFloat d = (a * i * t / 100)%float.
Proof.
  intros (Ha & Hi & Ht). unfold spec_interest_amount.
  by rewrite (get_numeric _ _ _ Ha), (get_numeric _ _ _ Hi),
    (get_numeric _ _ _ Ht).
Qed.

Lemma spec_final_amount_numeric (parseFloat : string → float)
    (d : gmap string value) (a i t : float) :
  has_inputs d a i t →
  spec_final_amount parseFloat d = (a * i * t / 100 + a)%float.
Proof.
  intros H. unfold spec_final_amount.
  rewrite (spec_interest_amount_numeric _ _ _ _ _ H).
  destruct H as (Ha & _). by rewrite (get_numeric _ _ _ Ha).
Qed.

(** ** The recalculation *)

(** C1: for every record whose [approved_amount], [interest] and [tenure] are
    the numbers [a], [i] and [t], [calculate_interest_amount] sets
    [interest_amount] to [a * i * t / 100] and [final_amount] to that
    [interest_amount + a], in the script's own binary64 arithmetic. *)
Theorem C1_formula (parseFloat : string → float) (s : frm) (a i t : float) :
  has_inputs (doc s) a i t →
  let s' := exec (calculate_interest_amount parseFloat) s in
  doc s' !! "interest_amount" = Some (JNum (a * i * t / 100)%float)
  ∧ doc s' !! "final_amount" = Some (JNum (a * i * t / 100 + a)%float).
Proof.
  intros H s'. subst s'. rewrite exec_calculate. cbn [doc]. split.
  - rewrite after_second_write_interest_amount.
    by rewrite (spec_interest_amount_numeric _ _ _ _ _ H).
  - rewrite after_second_write_final_amount.
    by rewrite (spec_final_amount_numeric _ _ _ _ _ H).
Qed.

Lemma C1_formula_witness :
  has_inputs (doc rounded) 1000.1 7.5 3
  ∧ doc (exec (calculate_interest_amount no_numeric_text) rounded)
      !! "interest_amount" = Some (JNum (1000.1 * 7.5 * 3 / 100)%float)
  ∧ doc (exec (calculate_interest_amount no_numeric_text) rounded)
      !! "final_amount"
    = Some (JNum (1000.1 * 7.5 * 3 / 100 + 1000.1)%float).
Proof.
  split.
  - repeat split; reflexivity.
  - apply (C1_formula no_numeric_text rounded 1000.1 7.5 3).
    repeat split; reflexivity.
Defined.

(** C5: [calculate_interest_amount] is idempotent: run a second time with
    the three inputs unchanged, it leaves the form, and so [interest_amount]
    and [final_amount], as the first run left them. *)
Theorem C5_idempotent (parseFloat : string → float) (s : frm) :
  let once := exec (calculate_interest_amount parseFloat) s in
  let twice := exec (calculate_interest_amount parseFloat) once in
  twice = once
  ∧ doc twice !! "interest_amount" = doc once !! "interest_amount"
  ∧ doc twice !! "final_amount" = doc once !! "final_amount".
Proof.
  intros once twice.
  assert (twice = once) as E; [| by rewrite E].
  subst once twice. rewrite !exec_calculate. cbn [doc queries]. f_equal.
  set (d := doc s). unfold after_second_write at 1.
  rewrite (spec_final_amount_inputs _ _ d)
    by (intros f Hf; by apply after_second_write_inputs).
  unfold after_first_write at 1.
  rewrite (spec_interest_amount_inputs _ _ d)
    by (intros f Hf; by apply after_second_write_inputs).
  unfold after_second_write, after_first_write.
  apply map_eq. intros k.
  destruct (decide (k = "final_amount")) as [-> | Hf].
  { by rewrite !lookup_insert_eq. }
  rewrite !(lookup_insert_ne _ "final_amount") by done.
  destruct (decide (k = "interest_amount")) as [-> | Hi].
  { by rewrite !lookup_insert_eq. }
  by rewrite !lookup_insert_ne.
Qed.

(** C6: the concrete scenarios.  1000 at 5 for 2 gives 100 and 1100; 2500 at
    0 for 12 gives 0 and 2500; 1500.5 at 3.25 for 4 gives 195.065 and
    1695.565, the decimal numerals being read as binary64 the way the script
    language reads them. *)
Theorem C6_scenarios (parseFloat : string → float) (s : frm) :
  let s' := exec (calculate_interest_amount parseFloat) s in
  (has_inputs (doc s) 1000 5 2 →
     doc s' !! "interest_amount" = Some (JNum 100)
     ∧ doc s' !! "final_amount" = Some (JNum 1100))
  ∧ (has_inputs (doc s) 2500 0 12 →
     doc s' !! "interest_amount" = Some (JNum 0)
     ∧ doc s' !! "final_amount" = Some (JNum 2500))
  ∧ (has_inputs (doc s) 1500.5 3.25 4 →
     doc s' !! "interest_amount" = Some (JNum 195.065)
     ∧ doc s' !! "final_amount" = Some (JNum 1695.565)).
Proof.
  intros s'. subst s'. rewrite exec_calculate. cbn [doc].
  rewrite after_second_write_interest_amount,
    after_second_write_final_amount.
  split; [| split]; intros H;
    rewrite (spec_interest_amount_numeric _ _ _ _ _ H),
      (spec_final_amount_numeric _ _ _ _ _ H);
    split; reflexivity.
Qed.

Lemma C6_scenarios_witness :
  (has_inputs (record (JNum 1000) (JNum 5) (JNum 2)) 1000 5 2
   ∧ has_inputs (record (JNum 2500) (JNum 0) (JNum 12)) 2500 0 12
   ∧ has_inputs (record (JNum 1500.5) (JNum 3.25) (JNum 4)) 1500.5 3.25 4)
  ∧ get (doc (exec (calculate_interest_amount no_numeric_text)
                {| doc := record (JNum 1000) (JNum 5) (JNum 2);
                   queries := ∅ |})) "final_amount" = JNum 1100
  ∧ get (doc (exec (calculate_interest_amount no_numeric_text)
                {| doc := record (JNum 2500) (JNum 0) (JNum 12);
                   queries := ∅ |})) "final_amount" = JNum 2500
  ∧ get (doc (exec (calculate_interest_amount no_numeric_text)
                {| doc := record (JNum 1500.5) (JNum 3.25) (JNum 4);
                   queries := ∅ |})) "final_amount" = JNum 1695.565.
Proof.
  split; [repeat split; reflexivity |].
  split; [| split]; apply get_numeric.
  - apply (C6_scenarios no_numeric_text
             {| doc := record (JNum 1000) (JNum 5) (JNum 2); queries := ∅ |}).
    repeat split; reflexivity.
  - apply (C6_scenarios no_numeric_text
             {| doc := record (JNum 2500) (JNum 0) (JNum 12);
                queries := ∅ |}).
    repeat split; reflexivity.
  - apply (C6_scenarios no_numeric_text
             {| doc := record (JNum 1500.5) (JNum 3.25) (JNum 4);
                queries := ∅ |}).
    repeat split; reflexivity.
Defined.

(** C7: [calculate_interest_amount] never fails.  On every form, whatever
    the record holds, the run completes, checks and rejects nothing, and makes
    its two field writes, each of a number: first [interest_amount], then
    [final_amount]. *)
Theorem C7_total (parseFloat : string → float) (s : frm) :
  ∃ x y : float,
    let d1 := <["interest_amount" := JNum x]> (doc s) in
    let d2 := <["final_amount" := JNum y]> d1 in
    calculate_interest_amount parseFloat s
    = (tt, {| doc := d2; queries := queries s |}, [d1; d2]).
Proof.
  exists (spec_interest_amount parseFloat (doc s)),
         (spec_final_amount parseFloat (doc s)).
  cbn zeta. by rewrite calculate_interest_amount_run.
Qed.

(** C8: [calculate_interest_amount] writes only [interest_amount] and
    [final_amount]: every other field of the record, among them
    [approved_amount], [interest], [tenure], [full_name] and [email], is
    after the call what it was before, and so are the registered queries. *)
Theorem C8_frame (parseFloat : string → float) (s : frm) (k : string) :
  k ≠ "interest_amount" → k ≠ "final_amount" →
  let s' := exec (calculate_interest_amount parseFloat) s in
  doc s' !! k = doc s !! k ∧ queries s' = queries s.
Proof.
  intros H1 H2 s'. subst s'. rewrite exec_calculate. cbn [doc queries].
  split; [by apply after_second_write_other | done].
Qed.

Lemma C8_frame_witness :
  ("email" ≠ "interest_amount" ∧ "email" ≠ "final_amount")
  ∧ doc (exec (calculate_interest_amount no_numeric_text) tenure_edited)
      !! "email" = doc tenure_edited !! "email"
  ∧ queries (exec (calculate_interest_amount no_numeric_text) tenure_edited)
    = queries tenure_edited.
Proof.
  split; [split; discriminate |].
  apply (C8_frame no_numeric_text tenure_edited "email"); discriminate.
Defined.

(** C10: the outputs of [calculate_interest_amount] depend on nothing but
    [approved_amount], [interest] and [tenure]: two forms that agree on these
    three fields, however they differ elsewhere, get the same
    [interest_amount] and the same [final_amount]. *)
Theorem C10_depends_on_inputs_only (parseFloat : string → float)
    (s1 s2 : frm) :
  (∀ f, f ∈ trigger_fields → get (doc s1) f = get (doc s2) f) →
  let s1' := exec (calculate_interest_amount parseFloat) s1 in
  let s2' := exec (calculate_interest_amount parseFloat) s2 in
  doc s1' !! "interest_amount" = doc s2' !! "interest_amount"
  ∧ doc s1' !! "final_amount" = doc s2' !! "final_amount".
Proof.
  intros H s1' s2'. subst s1' s2'. rewrite !exec_calculate. cbn [doc].
  rewrite !after_second_write_interest_amount,
    !after_second_write_final_amount.
  by rewrite (spec_interest_amount_inputs _ _ _ H),
    (spec_final_amount_inputs _ _ _ H).
Qed.

Lemma C10_depends_on_inputs_only_witness :
  doc (exec (calculate_interest_amount no_numeric_text) tenure_edited)
    !! "interest_amount"
  = doc (exec (calculate_interest_amount no_numeric_text)
           tenure_edited_elsewhere) !! "interest_amount"
  ∧ doc (exec (calculate_interest_amount no_numeric_text) tenure_edited)
      !! "final_amount"
    = doc (exec (calculate_interest_amount no_numeric_text)
             tenure_edited_elsewhere) !! "final_amount".
Proof.
  apply (C10_depends_on_inputs_only no_numeric_text
           tenure_edited tenure_edited_elsewhere).
  intros f Hf. unfold trigger_fields in Hf.
  repeat (apply elem_of_cons in Hf as [-> | Hf]; [reflexivity |]).
  by apply elem_of_nil in Hf.
Defined.

(** C9, as amended: after [calculate_interest_amount], [final_amount] is the
    binary64 sum of [interest_amount] and the zero-coerced [approved_amount],
    whatever [interest] and [tenure] are; the difference
    [final_amount - interest_amount] is that coerced [approved_amount]
    whenever [interest_amount] is zero. *)
Theorem C9_final_is_rounded_sum (parseFloat : string → float) (s : frm) :
  let s' := exec (calculate_interest_amount parseFloat) s in
  let a := flt parseFloat (get (doc s) "approved_amount") in
  ∃ x y : float,
    doc s' !! "interest_amount" = Some (JNum x)
    ∧ doc s' !! "final_amount" = Some (JNum y)
    ∧ y = (x + a)%float
    ∧ ((x =? 0)%float = true → same_value_zero (y - x) a = true).
Proof.
  intros s' a. subst s'. rewrite exec_calculate. cbn [doc].
  exists (spec_interest_amount parseFloat (doc s)),
         (spec_final_amount parseFloat (doc s)).
  rewrite after_second_write_interest_amount,
    after_second_write_final_amount.
  repeat split.
  intros [sg Hz]%eqb_zero_spec. unfold spec_final_amount.
  by apply (zero_plus_minus _ _ sg).
Qed.

Lemma C9_final_is_rounded_sum_witness :
  let s' := exec (calculate_interest_amount no_numeric_text) blank_tenure in
  ∃ x y : float,
    doc s' !! "interest_amount" = Some (JNum x)
    ∧ doc s' !! "final_amount" = Some (JNum y)
    ∧ (x =? 0)%float = true
    ∧ same_value_zero (y - x) 2500 = true.
Proof.
  intros s'.
  destruct (C9_final_is_rounded_sum no_numeric_text blank_tenure)
    as (x & y & Hx & Hy & _ & Hd).
  exists x, y. repeat split; [done | done | | apply Hd];
    vm_compute in Hx; by injection Hx as <-.
Defined.

(** At 1000.1 at 7.5 for 3 the script stores 225.0225 and 1225.1225, and
    1225.1225 - 225.0225 is 1000.0999999999999, not 1000.1. *)
Lemma C9_counterexample :
  let s' := exec (calculate_interest_amount no_numeric_text) rounded in
  flt no_numeric_text (get (doc rounded) "approved_amount") = 1000.1%float
  ∧ doc s' !! "interest_amount" = Some (JNum 225.0225)
  ∧ doc s' !! "final_amount" = Some (JNum 1225.1225)
  ∧ (1225.1225 - 225.0225)%float = 1000.0999999999999%float
  ∧ same_value_zero (1225.1225 - 225.0225) 1000.1 = false
  ∧ (1225.1225 - 225.0225)%float ≠ 1000.1%float.
Proof.
  repeat split; try reflexivity. by apply float_neq.
Qed.

(** ** The change handlers *)

Lemma on_trigger_field (parseFloat : string → float) (ev : string)
    (h : handler unit) :
  ev ∈ trigger_fields → on parseFloat ev = Some h →
  h = calculate_interest_amount parseFloat.
Proof.
  unfold trigger_fields. intros Hev.
  repeat (apply elem_of_cons in Hev as [-> | Hev];
          [cbv [on form_events assoc]; simpl; by intros [= <-] |]).
  by apply elem_of_nil in Hev.
Qed.

Lemma consistent_after_second_write (parseFloat : string → float)
    (d : gmap string value) :
  consistent parseFloat (after_second_write parseFloat d).
Proof.
  unfold consistent.
  rewrite after_second_write_interest_amount,
    after_second_write_final_amount.
  split; do 2 f_equal.
  - symmetry. apply spec_interest_amount_inputs.
    intros f Hf. by apply after_second_write_inputs.
  - symmetry. apply spec_final_amount_inputs.
    intros f Hf. by apply after_second_write_inputs.
Qed.



(** ** Unusable input *)

Lemma spec_interest_amount_zeroed (parseFloat : string → float)
    (d : gmap string value) (f : string) :
  f ∈ trigger_fields → unusable parseFloat (get d f) →
  spec_interest_amount parseFloat (<[f := JNum 0]> d)
  = spec_interest_amount parseFloat d.
Proof.
  unfold trigger_fields. intros Hf Hu. unfold spec_interest_amount.
  repeat (apply elem_of_cons in Hf as [-> | Hf];
          [rewrite get_insert_eq, !get_insert_ne by done;
           by rewrite (flt_unusable _ _ Hu) |]).
  by apply elem_of_nil in Hf.
Qed.

Lemma spec_final_amount_zeroed (parseFloat : string → float)
    (d : gmap string value) (f : string) :
  f ∈ trigger_fields → unusable parseFloat (get d f) →
  spec_final_amount parseFloat (<[f := JNum 0]> d)
  = spec_final_amount parseFloat d.
Proof.
  intros Hf Hu. unfold spec_final_amount.
  rewrite (spec_interest_amount_zeroed _ _ _ Hf Hu). f_equal.
  destruct (decide (f = "approved_amount")) as [-> | Hne].
  - rewrite get_insert_eq. by rewrite (flt_unusable _ _ Hu).
  - by rewrite get_insert_ne.
Qed.

(** C3, as amended: when [approved_amount], [interest] or [tenure] is
    missing, blank or not numeric, [calculate_interest_amount] computes what
    it computes on the same record with the number 0 in that field.  So a
    record whose tenure is unusable, and whose coerced [approved_amount] and
    [interest] have a finite product, gets [interest_amount] zero and
    [final_amount] its coerced [approved_amount]. *)
Theorem C3_unusable_counts_as_zero (parseFloat : string → float)
    (s : frm) (f : string) :
  f ∈ trigger_fields → unusable parseFloat (get (doc s) f) →
  let s' := exec (calculate_interest_amount parseFloat) s in
  let z' := exec (calculate_interest_amount parseFloat)
              (with_field f (JNum 0) s) in
  let a := flt parseFloat (get (doc s) "approved_amount") in
  let i := flt parseFloat (get (doc s) "interest") in
  (doc s' !! "interest_amount" = doc z' !! "interest_amount"
   ∧ doc s' !! "final_amount" = doc z' !! "final_amount")
  ∧ (f = "tenure" → is_finite (a * i) = true →
     ∃ x y : float,
       doc s' !! "interest_amount" = Some (JNum x)
       ∧ doc s' !! "final_amount" = Some (JNum y)
       ∧ same_value_zero x 0 = true
       ∧ same_value_zero y a = true).
Proof.
  intros Hf Hu s' z' a i. subst s' z'. rewrite !exec_calculate.
  cbn [doc with_field].
  rewrite !after_second_write_interest_amount,
    !after_second_write_final_amount.
  split.
  - by rewrite (spec_interest_amount_zeroed _ _ _ Hf Hu),
      (spec_final_amount_zeroed _ _ _ Hf Hu).
  - intros -> Hfin.
    exists (spec_interest_amount parseFloat (doc s)),
           (spec_final_amount parseFloat (doc s)).
    split; [done | split; [done |]].
    destruct (times_zero_spec _ Hfin) as [sg Hz].
    assert (spec_interest_amount parseFloat (doc s) = (a * i * 0 / 100)%float)
      as E.
    { unfold spec_interest_amount. by rewrite (flt_unusable _ _ Hu). }
    unfold spec_final_amount. rewrite E. split.
    + by apply (same_value_zero_zero _ sg).
    + by apply (zero_plus _ _ sg).
Qed.

Lemma C3_unusable_counts_as_zero_witness :
  let s' := exec (calculate_interest_amount no_numeric_text) blank_tenure in
  ("tenure" ∈ trigger_fields
   ∧ unusable no_numeric_text (get (doc blank_tenure) "tenure")
   ∧ is_finite (2500 * 0) = true)
  ∧ ∃ x y : float,
      doc s' !! "interest_amount" = Some (JNum x)
      ∧ doc s' !! "final_amount" = Some (JNum y)
      ∧ same_value_zero x 0 = true
      ∧ same_value_zero y 2500 = true.
Proof.
  intros s'.
  assert ("tenure" ∈ trigger_fields) as Hf
    by (apply (bool_decide_unpack _); vm_compute; exact I).
  assert (unusable no_numeric_text (get (doc blank_tenure) "tenure")) as Hu
    by (left; reflexivity).
  assert (is_finite (2500 * 0) = true) as Hfin by reflexivity.
  split; [done |].
  exact (proj2 (C3_unusable_counts_as_zero no_numeric_text blank_tenure
                  "tenure" Hf Hu) eq_refl Hfin).
Defined.

(** With a blank tenure and two inputs of 1e200 the product of the inputs
    overflows to infinity, infinity times zero is [NaN], and the script
    stores [NaN] in both derived fields. *)
Lemma C3_counterexample :
  let s' := exec (calculate_interest_amount no_numeric_text) overflowing in
  get (doc overflowing) "tenure" = JStr ""
  ∧ flt no_numeric_text (get (doc overflowing) "approved_amount")
    = 1e200%float
  ∧ doc s' !! "interest_amount" = Some (JNum nan)
  ∧ doc s' !! "final_amount" = Some (JNum nan)
  ∧ same_value_zero nan 0 = false
  ∧ same_value_zero nan 1e200 = false.
Proof. repeat split; reflexivity. Qed.

(** ** The lookup filter *)

Lemma matches_email (v : value) (e : gmap string value) :
  matches {[ "email" := v ]} e ↔ get e "email" = v.
Proof. unfold matches. by rewrite map_Forall_singleton. Qed.

(** C4: once [setup] has run, the function registered for [full_name]
    answers every lookup with the one filter [email], set to the [email] of
    the record as it is when the lookup is made, and the candidates offered
    are exactly the entries whose [email] equals that value, in the order in
    which the host has them. *)
Theorem C4_lookup_filter (parseFloat : string → float) (s : frm)
    (d : gmap string value) (entries : list (gmap string value)) :
  let s' := exec setup s in
  let at_lookup := {| doc := d; queries := queries s' |} in
  on parseFloat "setup" = Some setup
  ∧ doc s' = doc s
  ∧ (∃ q, queries s' !! "full_name" = Some q
          ∧ filters (q d) = {[ "email" := get d "email" ]})
  ∧ lookup_candidates "full_name" at_lookup entries
    = filter (λ e, get e "email" = get d "email") entries
  ∧ ∀ e, e ∈ lookup_candidates "full_name" at_lookup entries
         ↔ e ∈ entries ∧ get e "email" = get d "email".
Proof.
  intros s' at_lookup.
  assert (queries s' !! "full_name"
          = Some (λ d', {| filters := {[ "email" := get d' "email" ]} |}))
    as Hq.
  { unfold s', exec, setup, set_query. cbn [fst snd queries].
    by rewrite lookup_insert_eq. }
  assert (lookup_candidates "full_name" at_lookup entries
          = filter (λ e, get e "email" = get d "email") entries) as E.
  { unfold lookup_candidates, at_lookup. cbn [doc queries].
    rewrite Hq. cbn [filters].
    apply list_filter_iff. intros e. apply matches_email. }
  split; [reflexivity | split; [reflexivity |]].
  split; [by eexists |]. split; [exact E |].
  intros e. rewrite E, list_elem_of_filter. tauto.
Qed.

(** The lookup of the specification's scenario: with the record's email
    [a@x.com], two of the four people are offered. *)
Example lookup_scenario :
  lookup_candidates "full_name"
    (exec (calculate_interest_amount no_numeric_text)
       (exec setup tenure_edited)) people
  = [ {[ "name" := JStr "Asha Rao"; "email" := JStr "a@x.com" ]};
      {[ "name" := JStr "A. Rao"; "email" := JStr "a@x.com" ]} ].
Proof. vm_compute. reflexivity. Qed.

(** * Further properties of the script *)

(** ** Signs, zeros and [NaN] in the arithmetic *)

Lemma is_nan_spec (x : float) : is_nan x = true ↔ Prim2SF x = S754_nan.
Proof.
  split; intros H.
  - unfold Prim2SF. by rewrite H.
  - unfold is_nan. by rewrite FloatAxioms.eqb_spec, H.
Qed.

Lemma nan_unique (x : float) : is_nan x = true → x = nan.
Proof. intros H%is_nan_spec. apply Prim2SF_inj. by rewrite H. Qed.

Lemma mul_nan_l (y : float) : (nan * y)%float = nan.
Proof. apply Prim2SF_inj. by rewrite mul_spec. Qed.

Lemma mul_nan_r (x : float) : (x * nan)%float = nan.
Proof.
  apply Prim2SF_inj. rewrite mul_spec.
  change (Prim2SF nan) with S754_nan. by destruct (Prim2SF x).
Qed.

Lemma div_nan_l (y : float) : (nan / y)%float = nan.
Proof. apply Prim2SF_inj. by rewrite div_spec. Qed.

Lemma add_nan_l (y : float) : (nan + y)%float = nan.
Proof. apply Prim2SF_inj. by rewrite add_spec. Qed.

Lemma leb_zero_spec (x : float) :
  (0 <=? x)%float = true → nonneg_sf (Prim2SF x).
Proof.
  rewrite leb_spec. change (Prim2SF 0) with (S754_zero false).
  destruct (Prim2SF x) as [s|s| |s m e]; unfold SFleb; simpl;
    try done; try constructor; destruct s; try done; constructor.
Qed.

Lemma ltb_zero_spec (x : float) :
  Prim2SF x = S754_nan ∨ nonneg_sf (Prim2SF x) → (x <? 0)%float = false.
Proof.
  rewrite ltb_spec. change (Prim2SF 0) with (S754_zero false).
  intros [-> | []]; done.
Qed.

Lemma binary_round_aux_nonneg (m e : Z) (l : location) :
  binary_round_aux prec emax false m e l = S754_nan
  ∨ nonneg_sf (binary_round_aux prec emax false m e l).
Proof.
  unfold binary_round_aux.
  destruct (shr_fexp _ _ _ _ _) as [mrs' e'].
  destruct (shr_fexp _ _ _ _ _) as [mrs'' e''].
  destruct (shr_m mrs''); [right; constructor | | by left].
  destruct (Z.leb _ _); right; constructor.
Qed.

Lemma SFmul_nonneg (x y : spec_float) :
  x = S754_nan ∨ nonneg_sf x → nonneg_sf y →
  SF64mul x y = S754_nan ∨ nonneg_sf (SF64mul x y).
Proof.
  intros [-> | [sx|mx ex|]] [sy|my ey|]; simpl;
    try (by left); try (right; constructor).
  apply binary_round_aux_nonneg.
Qed.

Lemma SFdiv_100_nonneg (x : spec_float) :
  x = S754_nan ∨ nonneg_sf x →
  SF64div x (Prim2SF 100) = S754_nan
  ∨ nonneg_sf (SF64div x (Prim2SF 100)).
Proof.
  change (Prim2SF 100) with (S754_finite false 7036874417766400 (-46)).
  intros [-> | [sx|mx ex|]]; try (by left); try (right; constructor).
  unfold SF64div, SFdiv.
  destruct (SFdiv_core_binary _ _ _ _ _ _) as [[mz ez] lz].
  apply binary_round_aux_nonneg.
Qed.

Lemma SFadd_nonneg (x y : spec_float) :
  x = S754_nan ∨ nonneg_sf x → nonneg_sf y →
  SF64add x y = S754_nan ∨ nonneg_sf (SF64add x y).
Proof.
  intros [-> | [sx|mx ex|]] [sy|my ey|]; simpl;
    try (by left); try (right; constructor).
  - destruct sx, sy; right; constructor.
  - unfold SF64add, SFadd, binary_normalize, cond_Zopp.
    cbn [Z.add]. unfold binary_round.
    destruct (shl_align (_ + _) _ _) as [mz ez].
    apply binary_round_aux_nonneg.
Qed.

(** A product that is finite and has a zero factor is a zero. *)
Lemma SFmul_zero_factor (x y : spec_float) (s : bool) :
  zero_or_finite (SF64mul x y) → x = S754_zero s ∨ y = S754_zero s →
  ∃ s', SF64mul x y = S754_zero s'.
Proof.
  intros H [-> | ->]; [destruct y | destruct x]; simpl in *;
    try (inversion H; fail); eauto.
Qed.

Lemma SFmul_zero_r (x : spec_float) (s : bool) :
  zero_or_finite x → ∃ s', SF64mul x (S754_zero s) = S754_zero s'.
Proof. intros []; simpl; eauto. Qed.

Lemma SFmul_zero_l (y : spec_float) (s : bool) :
  zero_or_finite y → ∃ s', SF64mul (S754_zero s) y = S754_zero s'.
Proof. intros []; simpl; eauto. Qed.

Lemma SFdiv_100_zero (s : bool) :
  SF64div (S754_zero s) (Prim2SF 100) = S754_zero s.
Proof.
  change (Prim2SF 100) with (S754_finite false 7036874417766400 (-46)).
  by destruct s.
Qed.

(** ** What the recalculation does with special inputs *)

(** X3: a [NaN] is not coerced away and spoils both results: when the
    coercion of [approved_amount], [interest] or [tenure] gives [NaN], the
    recalculation stores [NaN] in [interest_amount] and in [final_amount]. *)
Theorem nan_input_spoils_both (parseFloat : string → float) (s : frm)
    (f : string) :
  f ∈ trigger_fields →
  is_nan (flt parseFloat (get (doc s) f)) = true →
  let s' := exec (calculate_interest_amount parseFloat) s in
  doc s' !! "interest_amount" = Some (JNum nan)
  ∧ doc s' !! "final_amount" = Some (JNum nan).
Proof.
  intros Hf Hn%nan_unique s'. subst s'. rewrite exec_calculate. cbn [doc].
  rewrite after_second_write_interest_amount,
    after_second_write_final_amount.
  assert (spec_interest_amount parseFloat (doc s) = nan) as E.
  { unfold spec_interest_amount, trigger_fields in *.
    repeat (apply elem_of_cons in Hf as [-> | Hf];
            [rewrite Hn;
             by rewrite ?mul_nan_r, ?mul_nan_l, ?mul_nan_l, div_nan_l |]).
    by apply elem_of_nil in Hf. }
  unfold spec_final_amount. rewrite E. by rewrite add_nan_l.
Qed.

Lemma nan_input_spoils_both_witness :
  ("interest" ∈ trigger_fields
   ∧ is_nan (flt no_numeric_text (get (doc poisoned) "interest")) = true)
  ∧ doc (exec (calculate_interest_amount no_numeric_text) poisoned)
      !! "interest_amount" = Some (JNum nan)
  ∧ doc (exec (calculate_interest_amount no_numeric_text) poisoned)
      !! "final_amount" = Some (JNum nan).
Proof.
  assert ("interest" ∈ trigger_fields) as Hf
    by (apply (bool_decide_unpack _); vm_compute; exact I).
  assert (is_nan (flt no_numeric_text (get (doc poisoned) "interest"))
          = true) as Hn by reflexivity.
  split; [done |].
  exact (nan_input_spoils_both no_numeric_text poisoned "interest" Hf Hn).
Defined.

(** X4: nothing times something is nothing.  When the coerced inputs are
    finite, their product [approved_amount * interest] is finite too, and one
    of the three is zero, the recalculation stores a zero in
    [interest_amount] and the coerced [approved_amount] in [final_amount]. *)
Theorem zero_input_no_interest (parseFloat : string → float) (s : frm) :
  let a := flt parseFloat (get (doc s) "approved_amount") in
  let i := flt parseFloat (get (doc s) "interest") in
  let t := flt parseFloat (get (doc s) "tenure") in
  let s' := exec (calculate_interest_amount parseFloat) s in
  is_finite (a * i) = true → is_finite t = true →
  (a =? 0)%float = true ∨ (i =? 0)%float = true ∨ (t =? 0)%float = true →
  ∃ x y : float,
    doc s' !! "interest_amount" = Some (JNum x)
    ∧ doc s' !! "final_amount" = Some (JNum y)
    ∧ same_value_zero x 0 = true
    ∧ same_value_zero y a = true.
Proof.
  intros a i t s' Hp%is_finite_spec Ht%is_finite_spec Hz. subst s'.
  rewrite exec_calculate. cbn [doc].
  rewrite after_second_write_interest_amount,
    after_second_write_final_amount.
  exists (spec_interest_amount parseFloat (doc s)),
         (spec_final_amount parseFloat (doc s)).
  split; [done | split; [done |]].
  assert (∃ sg, Prim2SF (a * i * t / 100)%float = S754_zero sg) as [sg Hsg].
  { rewrite div_spec, !mul_spec. rewrite mul_spec in Hp.
    assert (∃ sg, SF64mul (SF64mul (Prim2SF a) (Prim2SF i)) (Prim2SF t)
                  = S754_zero sg) as [sg ->].
    { destruct Hz as [Ha | [Hi | Hz]].
      - apply eqb_zero_spec in Ha as [sa Ha].
        destruct (SFmul_zero_factor _ _ sa Hp (or_introl Ha)) as [s1 ->].
        by apply SFmul_zero_l.
      - apply eqb_zero_spec in Hi as [si Hi].
        destruct (SFmul_zero_factor _ _ si Hp (or_intror Hi)) as [s1 ->].
        by apply SFmul_zero_l.
      - apply eqb_zero_spec in Hz as [st ->].
        by apply SFmul_zero_r. }
    exists sg. apply SFdiv_100_zero. }
  unfold spec_final_amount, spec_interest_amount. fold a i t. split.
  - by apply (same_value_zero_zero _ sg).
  - by apply (zero_plus _ _ sg).
Qed.

Lemma zero_input_no_interest_witness :
  let s := {| doc := record (JNum 2500) (JNum 0) (JNum 12); queries := ∅ |} in
  let s' := exec (calculate_interest_amount no_numeric_text) s in
  (is_finite (2500 * 0) = true ∧ is_finite 12 = true
   ∧ (0 =? 0)%float = true)
  ∧ ∃ x y : float,
      doc s' !! "interest_amount" = Some (JNum x)
      ∧ doc s' !! "final_amount" = Some (JNum y)
      ∧ same_value_zero x 0 = true
      ∧ same_value_zero y 2500 = true.
Proof.
  intros s s'. split; [repeat split; reflexivity |].
  apply (zero_input_no_interest no_numeric_text s);
    [reflexivity | reflexivity | right; left; reflexivity].
Defined.

(** X5: the recalculation never turns inputs that are not negative into a
    negative amount: when the three coerced inputs are zero or more, neither
    [interest_amount] nor [final_amount] is below zero. *)
Theorem nonnegative_inputs_never_negative (parseFloat : string → float)
    (s : frm) :
  let a := flt parseFloat (get (doc s) "approved_amount") in
  let i := flt parseFloat (get (doc s) "interest") in
  let t := flt parseFloat (get (doc s) "tenure") in
  let s' := exec (calculate_interest_amount parseFloat) s in
  (0 <=? a)%float = true → (0 <=? i)%float = true →
  (0 <=? t)%float = true →
  ∃ x y : float,
    doc s' !! "interest_amount" = Some (JNum x)
    ∧ doc s' !! "final_amount" = Some (JNum y)
    ∧ (x <? 0)%float = false
    ∧ (y <? 0)%float = false.
Proof.
  intros a i t s' Ha%leb_zero_spec Hi%leb_zero_spec Ht%leb_zero_spec.
  subst s'. rewrite exec_calculate. cbn [doc].
  rewrite after_second_write_interest_amount,
    after_second_write_final_amount.
  exists (spec_interest_amount parseFloat (doc s)),
         (spec_final_amount parseFloat (doc s)).
  split; [done | split; [done |]].
  unfold spec_final_amount, spec_interest_amount. fold a i t.
  assert (Prim2SF (a * i * t / 100)%float = S754_nan
          ∨ nonneg_sf (Prim2SF (a * i * t / 100)%float)) as Hx.
  { rewrite div_spec, !mul_spec.
    apply SFdiv_100_nonneg, SFmul_nonneg; [| done].
    apply SFmul_nonneg; [by right | done]. }
  split; apply ltb_zero_spec; [done |].
  rewrite add_spec. by apply SFadd_nonneg.
Qed.

Lemma nonnegative_inputs_never_negative_witness :
  let s' := exec (calculate_interest_amount no_numeric_text) rounded in
  ((0 <=? 1000.1)%float = true ∧ (0 <=? 7.5)%float = true
   ∧ (0 <=? 3)%float = true)
  ∧ ∃ x y : float,
      doc s' !! "interest_amount" = Some (JNum x)
      ∧ doc s' !! "final_amount" = Some (JNum y)
      ∧ (x <? 0)%float = false
      ∧ (y <? 0)%float = false.
Proof.
  intros s'. split; [repeat split; reflexivity |].
  apply (nonnegative_inputs_never_negative no_numeric_text rounded);
    reflexivity.
Defined.

(** ** Recalculating again *)

Lemma consistent_after_second_write_id (parseFloat : string → float)
    (d : gmap string value) :
  consistent parseFloat d → after_second_write parseFloat d = d.
Proof.
  intros [Hia Hfa]. unfold after_second_write, after_first_write.
  rewrite (insert_id d "interest_amount") by done. by apply insert_id.
Qed.

Lemma consistent_after_first_write_id (parseFloat : string → float)
    (d : gmap string value) :
  consistent parseFloat d → after_first_write parseFloat d = d.
Proof. intros [Hia _]. by apply insert_id. Qed.

(** X1: the records on which the recalculation changes nothing are exactly
    those whose derived fields already hold what the formulas give; on such a
    record both field writes hand the host the record as it was. *)
Theorem recalculation_fixed_points (parseFloat : string → float) (s : frm) :
  (exec (calculate_interest_amount parseFloat) s = s
   ↔ consistent parseFloat (doc s))
  ∧ (consistent parseFloat (doc s) →
     exposed (calculate_interest_amount parseFloat) s = [doc s; doc s]).
Proof.
  rewrite exec_calculate, exposed_calculate. split; [split |].
  - intros E. apply (f_equal doc) in E. cbn [doc] in E.
    rewrite <- E at 1. rewrite E. rewrite <- E at 1.
    apply consistent_after_second_write.
  - intros H. rewrite (consistent_after_second_write_id _ _ H).
    by destruct s.
  - intros H.
    by rewrite (consistent_after_second_write_id _ _ H),
      (consistent_after_first_write_id _ _ H).
Qed.

Lemma recalculation_fixed_points_witness :
  consistent no_numeric_text (doc settled)
  ∧ exec (calculate_interest_amount no_numeric_text) settled = settled
  ∧ exposed (calculate_interest_amount no_numeric_text) settled
    = [doc settled; doc settled].
Proof.
  assert (consistent no_numeric_text (doc settled)) as H
    by (split; reflexivity).
  split; [exact H |]. split.
  - exact (proj2 (proj1 (recalculation_fixed_points no_numeric_text settled))
             H).
  - exact (proj2 (recalculation_fixed_points no_numeric_text settled) H).
Defined.

Lemma with_field_inputs (parseFloat : string → float)
    (d : gmap string value) (f g : string) (v : value) :
  g ∈ trigger_fields →
  get (<[f := v]> (after_second_write parseFloat d)) g
  = get (<[f := v]> d) g.
Proof.
  intros Hg. destruct (decide (f = g)) as [-> | Hne].
  - by rewrite !get_insert_eq.
  - rewrite !get_insert_ne by done. by apply after_second_write_inputs.
Qed.

Lemma after_second_write_absorbs (parseFloat : string → float)
    (d : gmap string value) (f : string) (v : value) :
  after_second_write parseFloat (<[f := v]> (after_second_write parseFloat d))
  = after_second_write parseFloat (<[f := v]> d).
Proof.
  unfold after_second_write at 1.
  rewrite (spec_final_amount_inputs _ _ (<[f := v]> d))
    by (intros g Hg; by apply with_field_inputs).
  unfold after_first_write at 1.
  rewrite (spec_interest_amount_inputs _ _ (<[f := v]> d))
    by (intros g Hg; by apply with_field_inputs).
  unfold after_second_write, after_first_write.
  apply map_eq. intros k.
  destruct (decide (k = "final_amount")) as [-> | Hfa].
  { by rewrite !lookup_insert_eq. }
  rewrite !(lookup_insert_ne _ "final_amount" k) by done.
  destruct (decide (k = "interest_amount")) as [-> | Hia].
  { by rewrite !lookup_insert_eq. }
  rewrite !(lookup_insert_ne _ "interest_amount" k) by done.
  destruct (decide (k = f)) as [-> | Hf].
  { by rewrite !lookup_insert_eq. }
  rewrite !(lookup_insert_ne _ f k) by done.
  by rewrite !lookup_insert_ne.
Qed.

(** X2: an earlier recalculation leaves no trace in a later one: replacing
    any field of a recalculated record and recalculating gives the form that
    the same replacement and one recalculation give on the record as it was
    before. *)
Theorem recalculation_absorbs_earlier (parseFloat : string → float)
    (s : frm) (f : string) (v : value) :
  exec (calculate_interest_amount parseFloat)
    (with_field f v (exec (calculate_interest_amount parseFloat) s))
  = exec (calculate_interest_amount parseFloat) (with_field f v s).
Proof.
  rewrite !exec_calculate. cbn [doc queries with_field]. f_equal.
  apply after_second_write_absorbs.
Qed.

(** ** The registered events *)

Lemma on_cases (parseFloat : string → float) (ev : string)
    (h : handler unit) :
  on parseFloat ev = Some h →
  (ev ∈ trigger_fields ∧ h = calculate_interest_amount parseFloat)
  ∨ (ev = "setup" ∧ h = setup).
Proof.
  unfold on, form_events, assoc, trigger_fields.
  do 3 (case_decide; [subst ev; intros [= <-]; left;
                      split; [set_solver | done] |]).
  case_decide; [| done]. subst ev. intros [= <-]. by right.
Qed.

Lemma on_event_names (parseFloat : string → float) (ev : string) :
  is_Some (on parseFloat ev) ↔ ev ∈ event_names.
Proof.
  unfold event_names. split.
  - intros [h Hh]. apply on_cases in Hh as [[H _] | [-> _]].
    + unfold trigger_fields in H.
      repeat (apply elem_of_cons in H as [-> | H];
              [by apply (bool_decide_unpack _) |]).
      by apply elem_of_nil in H.
    + by apply (bool_decide_unpack _).
  - intros H.
    repeat (apply elem_of_cons in H as [-> | H]; [by eexists |]).
    by apply elem_of_nil in H.
Qed.

(** X6: the script registers a handler under four names and no other, and
    none of them is the name of a field its recalculation changes: whichever
    field of the record differs after [calculate_interest_amount], no handler
    is registered for it, so a field write of the script cannot start the
    script again. *)
Theorem written_fields_have_no_handler (parseFloat : string → float) :
  (∀ ev, is_Some (on parseFloat ev) ↔ ev ∈ event_names)
  ∧ ∀ (s : frm) (k : string),
      doc (exec (calculate_interest_amount parseFloat) s) !! k
      ≠ doc s !! k →
      on parseFloat k = None.
Proof.
  split; [apply on_event_names |].
  intros s k Hk. rewrite exec_calculate in Hk. cbn [doc] in Hk.
  destruct (decide (k = "interest_amount")) as [-> | Hia]; [done |].
  destruct (decide (k = "final_amount")) as [-> | Hfa]; [done |].
  by rewrite after_second_write_other in Hk.
Qed.

Lemma written_fields_have_no_handler_witness :
  doc (exec (calculate_interest_amount no_numeric_text) tenure_edited)
    !! "final_amount" ≠ doc tenure_edited !! "final_amount"
  ∧ on no_numeric_text "final_amount" = None.
Proof.
  assert (doc (exec (calculate_interest_amount no_numeric_text)
                 tenure_edited) !! "final_amount"
          ≠ doc tenure_edited !! "final_amount") as H.
  { change (Some (JNum 1200) ≠ Some (JNum 1100)).
    intros E%Some_JNum_inj. revert E. by apply float_neq. }
  split; [exact H |].
  exact (proj2 (written_fields_have_no_handler no_numeric_text)
           tenure_edited "final_amount" H).
Defined.

(** ** The lookup filter and the recalculation *)

Lemma exec_setup (s : frm) :
  exec setup s
  = {| doc := doc s;
       queries :=
         <["full_name" :=
             λ d, {| filters := {[ "email" := get d "email" ]} |}]>
           (queries s) |}.
Proof. reflexivity. Qed.

Lemma exec_setup_twice (s : frm) : exec setup (exec setup s) = exec setup s.
Proof.
  rewrite !exec_setup. cbn [doc queries]. f_equal. apply insert_insert_eq.
Qed.

(** X7: [setup] writes no field and hands the host no record; running it
    twice is running it once; and it can come before or after a
    recalculation, the form is the same. *)
Theorem setup_composes (parseFloat : string → float) (s : frm) :
  exposed setup s = []
  ∧ doc (exec setup s) = doc s
  ∧ exec setup (exec setup s) = exec setup s
  ∧ exec setup (exec (calculate_interest_amount parseFloat) s)
    = exec (calculate_interest_amount parseFloat) (exec setup s).
Proof.
  split; [reflexivity | split; [reflexivity | split]].
  - apply exec_setup_twice.
  - by rewrite !exec_calculate, !exec_setup.
Qed.

(** X8: once [setup] has run, no handler of the script changes what the
    lookup of [full_name] offers: after any registered handler the filters,
    and with them the candidates, are those of before. *)
Theorem handlers_keep_candidates (parseFloat : string → float) (s : frm)
    (ev : string) (h : handler unit)
    (entries : list (gmap string value)) :
  on parseFloat ev = Some h →
  let ready := exec setup s in
  lookup_candidates "full_name" (exec h ready) entries
  = lookup_candidates "full_name" ready entries.
Proof.
  intros [[_ ->] | [_ ->]]%on_cases ready; subst ready.
  - rewrite exec_calculate, exec_setup. unfold lookup_candidates.
    cbn [doc queries]. rewrite lookup_insert_eq. cbn [filters].
    unfold get. by rewrite (after_second_write_other _ _ "email").
  - by rewrite exec_setup_twice.
Qed.

Lemma handlers_keep_candidates_witness :
  on no_numeric_text "tenure" = Some (tenure no_numeric_text)
  ∧ lookup_candidates "full_name"
      (exec (tenure no_numeric_text) (exec setup tenure_edited)) people
    = lookup_candidates "full_name" (exec setup tenure_edited) people.
Proof.
  assert (on no_numeric_text "tenure" = Some (tenure no_numeric_text)) as H
    by reflexivity.
  split; [exact H |].
  exact (handlers_keep_candidates no_numeric_text tenure_edited "tenure"
           (tenure no_numeric_text) people H).
Defined.

(** ** A session of edits *)

Lemma exec_change (parseFloat : string → float) (f : string) (v : value)
    (s : frm) :
  exec (change parseFloat f v) s
  = match on parseFloat f with
    | Some h => exec h (with_field f v s)
    | None => with_field f v s
    end.
Proof.
  unfold change, exec, mbind, handler_bind, set_value, with_field.
  destruct (on parseFloat f) as [h |]; [| reflexivity].
  by destruct (h _) as [[u s2] w].
Qed.

Lemma consistent_with_field (parseFloat : string → float)
    (d : gmap string value) (f : string) (v : value) :
  f ∉ trigger_fields → f ∉ derived_fields →
  consistent parseFloat d → consistent parseFloat (<[f := v]> d).
Proof.
  unfold derived_fields. intros Ht Hd [Hia Hfa].
  assert (∀ g, g ∈ trigger_fields → get (<[f := v]> d) g = get d g) as Hin.
  { intros g Hg. apply get_insert_ne. by intros ->. }
  unfold consistent.
  rewrite (spec_interest_amount_inputs _ _ _ Hin),
    (spec_final_amount_inputs _ _ _ Hin).
  rewrite !lookup_insert_ne by set_solver. done.
Qed.

Lemma change_trigger_field (parseFloat : string → float) (f : string)
    (v : value) (s : frm) :
  f ∈ trigger_fields →
  consistent parseFloat (doc (exec (change parseFloat f v) s)).
Proof.
  intros Hf. rewrite exec_change.
  destruct (on parseFloat f) as [h |] eqn:Hon.
  - rewrite (on_trigger_field _ _ _ Hf Hon), exec_calculate. cbn [doc].
    apply consistent_after_second_write.
  - exfalso. unfold trigger_fields in Hf.
    repeat (apply elem_of_cons in Hf as [-> | Hf]; [done |]).
    by apply elem_of_nil in Hf.
Qed.

Lemma change_other_field (parseFloat : string → float) (f : string)
    (v : value) (s : frm) :
  f ∉ trigger_fields → f ∉ derived_fields →
  consistent parseFloat (doc s) →
  consistent parseFloat (doc (exec (change parseFloat f v) s)).
Proof.
  intros Ht Hd Hc. rewrite exec_change.
  destruct (on parseFloat f) as [h |] eqn:Hon.
  - apply on_cases in Hon as [[Hf _] | [_ ->]]; [done |].
    rewrite exec_setup. cbn [doc with_field].
    by apply consistent_with_field.
  - cbn [doc with_field]. by apply consistent_with_field.
Qed.

(** X9: through a session in which the user never types into a derived
    field, the formulas hold at the end as soon as they held at the start or
    one of the edits was of [approved_amount], [interest] or [tenure]:
    whatever was entered, text included, the last recalculation has put
    [interest_amount] and [final_amount] right and no later edit has undone
    it. *)
Theorem session_keeps_formulas (parseFloat : string → float)
    (edits : list (string * value)) (s : frm) :
  Forall (λ e, e.1 ∉ derived_fields) edits →
  consistent parseFloat (doc s)
  ∨ Exists (λ e, e.1 ∈ trigger_fields) edits →
  consistent parseFloat (doc (changes parseFloat edits s)).
Proof.
  revert s. induction edits as [| [f v] edits IH]; intros s Hd Hc.
  - destruct Hc as [Hc | Hc]; [done | by apply Exists_nil in Hc].
  - apply Forall_cons in Hd as [Hf Hd]. cbn [fst] in Hf.
    unfold changes. cbn [foldl fst snd]. apply IH; [done |].
    destruct (decide (f ∈ trigger_fields)) as [Ht | Ht].
    + left. by apply change_trigger_field.
    + destruct Hc as [Hc | Hc].
      * left. by apply change_other_field.
      * right. apply Exists_cons in Hc as [Hc | Hc]; done.
Qed.

Lemma session_keeps_formulas_witness :
  (Forall (λ e : string * value, e.1 ∉ derived_fields) session
   ∧ Exists (λ e : string * value, e.1 ∈ trigger_fields) session)
  ∧ consistent no_numeric_text
      (doc (changes no_numeric_text session tenure_edited)).
Proof.
  assert (Forall (λ e : string * value, e.1 ∉ derived_fields) session)
    as Hd by (apply (bool_decide_unpack _); vm_compute; exact I).
  assert (Exists (λ e : string * value, e.1 ∈ trigger_fields) session)
    as Ht by (apply (bool_decide_unpack _); vm_compute; exact I).
  split; [done |].
  exact (session_keeps_formulas no_numeric_text session tenure_edited Hd
           (or_intror Ht)).
Defined.

(** ** The order of the edits *)

Lemma exec_change_form (parseFloat : string → float) (f : string)
    (v : value) (s : frm) :
  exec (change parseFloat f v) s
  = {| doc := if decide (f ∈ trigger_fields)
              then after_second_write parseFloat (<[f := v]> (doc s))
              else <[f := v]> (doc s);
       queries := if decide (f = "setup")
                  then queries (exec setup s)
                  else queries s |}.
Proof.
  rewrite exec_change. destruct (on parseFloat f) as [h |] eqn:Hon.
  - apply on_cases in Hon as [[Hf ->] | [-> ->]].
    + rewrite exec_calculate. cbn [doc queries with_field].
      rewrite decide_True by done. rewrite decide_False; [done |].
      intros ->. revert Hf. by apply (bool_decide_unpack _).
    + rewrite !exec_setup. cbn [doc queries with_field].
      rewrite decide_False by (by apply (bool_decide_unpack _)).
      by rewrite decide_True.
  - assert (f ∉ event_names) as Hn.
    { rewrite <- on_event_names, Hon. by intros [? [=]]. }
    unfold with_field.
    rewrite decide_False.
    2: { intros Hf. apply Hn. unfold trigger_fields in Hf.
         repeat (apply elem_of_cons in Hf as [-> | Hf];
                 [by apply (bool_decide_unpack _) |]).
         by apply elem_of_nil in Hf. }
    rewrite decide_False; [done |].
    intros ->. apply Hn. by apply (bool_decide_unpack _).
Qed.

Lemma after_second_write_insert (parseFloat : string → float)
    (d : gmap string value) (f : string) (v : value) :
  f ∉ trigger_fields → f ∉ derived_fields →
  after_second_write parseFloat (<[f := v]> d)
  = <[f := v]> (after_second_write parseFloat d).
Proof.
  unfold derived_fields. intros Ht Hd.
  assert (∀ g, g ∈ trigger_fields → get (<[f := v]> d) g = get d g) as Hin.
  { intros g Hg. apply get_insert_ne. by intros ->. }
  unfold after_second_write, after_first_write.
  rewrite (spec_interest_amount_inputs _ _ _ Hin),
    (spec_final_amount_inputs _ _ _ Hin).
  rewrite (insert_insert_ne _ "interest_amount" f) by set_solver.
  rewrite (insert_insert_ne _ "final_amount" f) by set_solver. done.
Qed.

(** X10: the order in which two different fields are entered does not
    matter, as long as neither is a derived field: the two edits leave the
    same form in either order, recalculations included. *)
Theorem edits_commute (parseFloat : string → float) (s : frm)
    (f1 f2 : string) (v1 v2 : value) :
  f1 ≠ f2 → f1 ∉ derived_fields → f2 ∉ derived_fields →
  changes parseFloat [(f1, v1); (f2, v2)] s
  = changes parseFloat [(f2, v2); (f1, v1)] s.
Proof.
  intros Hne Hd1 Hd2. unfold changes. cbn [foldl fst snd].
  rewrite !exec_change_form. cbn [doc queries]. f_equal.
  - do 2 case_decide.
    + rewrite !after_second_write_absorbs. f_equal.
      by apply insert_insert_ne.
    + rewrite <- after_second_write_insert by done. f_equal.
      by apply insert_insert_ne.
    + rewrite <- after_second_write_insert by done. f_equal.
      by apply insert_insert_ne.
    + by apply insert_insert_ne.
  - rewrite !exec_setup. cbn [queries]. do 2 case_decide; congruence.
Qed.

Lemma edits_commute_witness :
  ("tenure" ≠ "interest" ∧ ("tenure" ∉ derived_fields)
   ∧ ("interest" ∉ derived_fields))
  ∧ changes no_numeric_text [("tenure", JNum 3); ("interest", JNum 7.5)]
      tenure_edited
    = changes no_numeric_text [("interest", JNum 7.5); ("tenure", JNum 3)]
        tenure_edited.
Proof.
  assert ("tenure" ∉ derived_fields) as H1
    by (apply (bool_decide_unpack _); vm_compute; exact I).
  assert ("interest" ∉ derived_fields) as H2
    by (apply (bool_decide_unpack _); vm_compute; exact I).
  split; [split; [discriminate | done] |].
  apply (edits_commute no_numeric_text tenure_edited "tenure" "interest");
    [discriminate | exact H1 | exact H2].
Defined.
